(** * Field-mapping consistency check: a shallow embedding

    The script [verify_field_mapping.py] holds two literal tables,
    [DB_FIELDS] and [FRONTEND_FIELDS], from a filing type to a set of field
    names.  For each filing type of a literal list it looks both sets up,
    takes the two set differences and the intersection, and prints the
    missing fields, the extra fields and the fraction of matched fields.

    Python sets of strings are [gset string], the tables are
    [gmap string value], exceptions are an explicit [outcome], and what
    [print] writes is a list of [line]s carried next to the outcome. *)

From Stdlib Require Import QArith.
From stdpp Require Import gmap strings list fin_maps sets sorting.

(** ** Python values, exceptions and output *)

(** The objects the names [db_fields] and [fe_fields] may be bound to: a set
    of strings, as in the literal tables, or, for the error path, [None] or a
    [str]. *)
Inductive value :=
| VNone
| VStr (s : string)
| VSet (s : gset string).

Definition is_set (v : value) : bool :=
  match v with VSet _ => true | _ => false end.

Inductive exn :=
| TypeError
| KeyError (k : string).

(** The name of the class of an exception. *)
Definition class_name (e : exn) : string :=
  match e with
  | TypeError => "TypeError"
  | KeyError _ => "KeyError"
  end.

Inductive outcome (A : Type) :=
| Return (a : A)
| Raise (e : exn).
Arguments Return {A} a.
Arguments Raise {A} e.

(** One [print] call.  The decorative text is kept abstract; the data that
    is formatted into a line is kept. *)
Inductive line :=
| Banner                                (* line 52 *)
| Heading (filing_type : string)        (* line 55 *)
| Rule                                  (* lines 56 and 80 *)
| MissingTitle                          (* line 64 *)
| ExtraTitle                            (* line 71 *)
| Bullet (field : string)               (* lines 66 and 73 *)
| MatchedCount (n total : nat)          (* line 77 *)
| Advice (n : nat).                     (* lines 79 and 81 to 87 *)

(** A computation prints some lines, then returns or raises.  Lines printed
    before an exception stay printed. *)
Definition M (A : Type) : Type := (list line * outcome A)%type.

#[global] Instance M_ret : MRet M := λ A a, ([], Return a).

#[global] Instance M_bind : MBind M := λ A B k m,
  match m with
  | (out, Return a) => let '(out', r) := k a in (out ++ out', r)
  | (out, Raise e) => (out, Raise e)
  end.

Definition print (l : line) : M unit := ([l], Return tt).

Definition lift {A} (o : outcome A) : M A := ([], o).

Definition printed {A} (m : M A) : list line := m.1.

Definition result {A} (m : M A) : outcome A := m.2.

(** [for x in xs: body(x)], which stops at the first exception. *)
Fixpoint for_each {A} (xs : list A) (body : A → M unit) : M unit :=
  match xs with
  | [] => mret tt
  | x :: xs' => body x ;; for_each xs' body
  end.

(** The same loop, keeping what each iteration bound. *)
Fixpoint for_collect {A B} (xs : list A) (body : A → M B) : M (list (A * B)) :=
  match xs with
  | [] => mret []
  | x :: xs' => b ← body x; bs ← for_collect xs' body; mret ((x, b) :: bs)
  end.

(** ** The operators the script applies *)

(** [a - b]: defined between two sets; [None] and [str] have no [-]. *)
Definition py_sub (a b : value) : outcome (gset string) :=
  match a, b with
  | VSet x, VSet y => Return (x ∖ y)
  | _, _ => Raise TypeError
  end.

(** [a & b]: likewise. *)
Definition py_and (a b : value) : outcome (gset string) :=
  match a, b with
  | VSet x, VSet y => Return (x ∩ y)
  | _, _ => Raise TypeError
  end.

(** [len(a)] *)
Definition py_len (a : value) : outcome nat :=
  match a with
  | VSet x => Return (size x)
  | VStr s => Return (String.length s)
  | VNone => Raise TypeError
  end.

(** [d[k]] on a dict *)
Definition py_getitem (d : gmap string value) (k : string) : outcome value :=
  match d !! k with
  | Some v => Return v
  | None => Raise (KeyError k)
  end.

(** ** The loop body, lines 62 to 77 *)

(** What one iteration binds and prints: the three sets, and the two
    numbers formatted into the last line. *)
Record Reconciliation := {
  missing_in_frontend : gset string;
  extra_in_frontend : gset string;
  matched : gset string;
  len_matched : nat;
  len_db_fields : nat
}.

(** [if s: print(title); for field in s: print(bullet)]; an empty set is
    falsy.  The order in which Python walks a set is unspecified;
    [elements] picks one. *)
Definition print_fields (title : line) (s : gset string) : M unit :=
  if decide (s = ∅) then mret tt
  else print title ;; for_each (elements s) (λ field, print (Bullet field)).

(** The lines [print_fields] writes. *)
Definition field_lines (title : line) (s : gset string) : list line :=
  if decide (s = ∅) then [] else title :: (Bullet <$> elements s).

Definition reconcile (db_fields fe_fields : value) : M Reconciliation :=
  missing ← lift (py_sub db_fields fe_fields);
  print_fields MissingTitle missing ;;
  extra ← lift (py_sub fe_fields db_fields);
  print_fields ExtraTitle extra ;;
  both ← lift (py_and db_fields fe_fields);
  n ← lift (py_len (VSet both));
  total ← lift (py_len db_fields);
  print (MatchedCount n total) ;;
  mret {| missing_in_frontend := missing; extra_in_frontend := extra;
          matched := both; len_matched := n; len_db_fields := total |}.

(** The number the fraction printed on line 77 denotes, when it denotes
    one.  The script formats the two lengths and never divides. *)
Definition printed_coverage (r : Reconciliation) : option Q :=
  match len_db_fields r with
  | 0 => None
  | S _ => Some (Z.of_nat (len_matched r) # Pos.of_nat (len_db_fields r))
  end.

(** ** The tables and the script *)

Definition DB_FIELDS : gmap string value := list_to_map [
  ("10-K", VSet (list_to_set [
     "auditor_opinion"; "business_segments"; "growth_drivers";
     "management_outlook"; "market_impact_10k"; "risk_summary";
     "strategic_adjustments"; "three_year_financials"]));
  ("10-Q", VSet (list_to_set [
     "beat_miss_analysis"; "cost_structure"; "expectations_comparison";
     "growth_decline_analysis"; "guidance_update"; "management_tone_analysis";
     "market_impact_10q"]));
  ("8-K", VSet (list_to_set [
     "event_nature_analysis"; "event_timeline"; "item_type";
     "items"; "key_considerations"; "market_impact_analysis"]));
  ("S-1", VSet (list_to_set [
     "company_overview"; "competitive_moat_analysis"; "financial_summary";
     "growth_path_analysis"; "ipo_details"; "risk_categories"]))
].

Definition FRONTEND_FIELDS : gmap string value := list_to_map [
  ("10-K", VSet (list_to_set [
     "auditor_opinion"; "business_segments"; "growth_drivers";
     "management_outlook"; "risk_summary"; "strategic_adjustments";
     "three_year_financials"]));
  ("10-Q", VSet (list_to_set [
     "beat_miss_analysis"; "cost_structure"; "expectations_comparison";
     "growth_decline_analysis"; "guidance_update"; "management_tone_analysis"]));
  ("8-K", VSet (list_to_set [
     "event_nature_analysis"; "event_timeline"; "item_type";
     "items"; "key_considerations"; "market_impact_analysis";
     "event_summary"; "event_type"]));
  ("S-1", VSet (list_to_set [
     "company_overview"; "competitive_moat_analysis"; "financial_summary";
     "growth_path_analysis"; "ipo_details"; "risk_categories";
     "business_description"]))
].

(** The list the [for] statement of line 54 walks. *)
Definition filing_types : list string := ["10-K"; "10-Q"; "8-K"; "S-1"].

(** One iteration, lines 55 to 77. *)
Definition iteration (db fe : gmap string value) (filing_type : string)
  : M Reconciliation :=
  print (Heading filing_type) ;;
  print Rule ;;
  db_fields ← lift (py_getitem db filing_type);
  fe_fields ← lift (py_getitem fe filing_type);
  reconcile db_fields fe_fields.

(** The loop of line 54 over a list of filing types and two tables. *)
Definition filing_type_loop (types : list string) (db fe : gmap string value)
  : M (list (string * Reconciliation)) :=
  for_collect types (iteration db fe).

(** The whole script, lines 52 to 87. *)
Definition script : M (list (string * Reconciliation)) :=
  print Banner ;;
  rs ← filing_type_loop filing_types DB_FIELDS FRONTEND_FIELDS;
  print (Advice 79) ;;
  print Rule ;;
  print (Advice 81) ;;
  print (Advice 82) ;;
  print (Advice 83) ;;
  print (Advice 84) ;;
  print (Advice 85) ;;
  print (Advice 86) ;;
  print (Advice 87) ;;
  mret rs.

(** The script over any list of filing types and any two tables: lines 52
    to 87 with the three literals of lines 6, 28 and 54 as arguments. *)
Definition script_on (types : list string) (db fe : gmap string value)
  : M (list (string * Reconciliation)) :=
  print Banner ;;
  rs ← filing_type_loop types db fe;
  print (Advice 79) ;;
  print Rule ;;
  print (Advice 81) ;;
  print (Advice 82) ;;
  print (Advice 83) ;;
  print (Advice 84) ;;
  print (Advice 85) ;;
  print (Advice 86) ;;
  print (Advice 87) ;;
  mret rs.

(** The nine lines printed after the loop, lines 79 to 87. *)
Definition advice_block : list line :=
  [Advice 79; Rule; Advice 81; Advice 82; Advice 83; Advice 84; Advice 85;
   Advice 86; Advice 87].

Definition is_advice (l : line) : bool :=
  match l with Advice _ => true | _ => false end.

(** The filing types in the order their headings were printed. *)
Definition headings (out : list line) : list string :=
  omap (λ l, match l with Heading t => Some t | _ => None end) out.

(** Python orders [str] by code point; on the ASCII names used here that is
    the order of [String.ltb]. *)
Definition str_lt (a b : string) : Prop := String.ltb a b = true.

(** * Properties *)

(** ** How the loop body runs on two sets *)

Section body_on_sets.

Implicit Types R O : gset string.

Lemma for_each_print (f : string → line) (xs : list string) :
  for_each xs (λ x, print (f x)) = (f <$> xs, Return tt).
Proof.
  induction xs as [|x xs IH]; [reflexivity|].
  cbn [for_each]. rewrite IH. reflexivity.
Qed.

Lemma print_fields_run title s :
  print_fields title s = (field_lines title s, Return tt).
Proof.
  unfold print_fields, field_lines. destruct (decide (s = ∅)); [reflexivity|].
  rewrite (for_each_print Bullet). reflexivity.
Qed.

(** On two sets the body raises nothing: it prints the two optional blocks
    and the count line, and binds the three sets. *)
Lemma reconcile_sets R O :
  reconcile (VSet R) (VSet O) =
    (field_lines MissingTitle (R ∖ O) ++ field_lines ExtraTitle (O ∖ R)
       ++ [MatchedCount (size (R ∩ O)) (size R)],
     Return {| missing_in_frontend := R ∖ O; extra_in_frontend := O ∖ R;
               matched := R ∩ O; len_matched := size (R ∩ O);
               len_db_fields := size R |}).
Proof.
  unfold reconcile. cbn. rewrite !print_fields_run. cbn.
  reflexivity.
Qed.

Lemma size_difference_intersection R O :
  size (R ∖ O) + size (R ∩ O) = size R.
Proof.
  rewrite <- size_union by set_solver.
  f_equal. apply set_eq. intros x.
  rewrite elem_of_union, elem_of_difference, elem_of_intersection.
  destruct (decide (x ∈ O)); tauto.
Qed.

End body_on_sets.

(** ** The three sets *)

(** C1: for every reference set R and observed set O, the loop body binds
    missing to R − O, extra to O − R and matched to R ∩ O; an element is
    missing iff it is in R and not in O, extra iff it is in O and not in R,
    matched iff it is in both. *)
Theorem reconcile_difference_and_intersection (R O : gset string) :
  ∃ r, result (reconcile (VSet R) (VSet O)) = Return r
    ∧ missing_in_frontend r = R ∖ O
    ∧ extra_in_frontend r = O ∖ R
    ∧ matched r = R ∩ O
    ∧ (∀ x, x ∈ missing_in_frontend r ↔ x ∈ R ∧ x ∉ O)
    ∧ (∀ x, x ∈ extra_in_frontend r ↔ x ∈ O ∧ x ∉ R)
    ∧ (∀ x, x ∈ matched r ↔ x ∈ R ∧ x ∈ O).
Proof.
  eexists. rewrite reconcile_sets. split; [reflexivity|]. cbn.
  repeat split; try reflexivity; set_solver.
Qed.

(** The scenario of the specification: R = {a, b, c} and O = {b, c, d}. *)
Example reconcile_abc_bcd :
  reconcile (VSet {["a"; "b"; "c"]}) (VSet {["b"; "c"; "d"]}) =
    ([MissingTitle; Bullet "a"; ExtraTitle; Bullet "d"; MatchedCount 2 3],
     Return {| missing_in_frontend := {["a"]}; extra_in_frontend := {["d"]};
               matched := {["b"; "c"]}; len_matched := 2;
               len_db_fields := 3 |}).
Proof. vm_compute. reflexivity. Qed.

(** C3: the matched set does not depend on the order of the two arguments. *)
Theorem reconcile_matched_symmetric (R O : gset string) :
  ∃ r r', result (reconcile (VSet R) (VSet O)) = Return r
    ∧ result (reconcile (VSet O) (VSet R)) = Return r'
    ∧ matched r = matched r'.
Proof.
  do 2 eexists. rewrite !reconcile_sets.
  split; [reflexivity|]. split; [reflexivity|]. cbn. set_solver.
Qed.

(** C5: no field is both missing and matched. *)
Theorem reconcile_missing_matched_disjoint (R O : gset string) :
  ∃ r, result (reconcile (VSet R) (VSet O)) = Return r
    ∧ missing_in_frontend r ∩ matched r = ∅.
Proof.
  eexists. rewrite reconcile_sets. split; [reflexivity|]. cbn. set_solver.
Qed.

(** C6: against an empty observed set, every field of a non-empty reference
    set is missing and none is extra. *)
Theorem reconcile_observed_empty (R : gset string) :
  R ≠ ∅ →
  ∃ r, result (reconcile (VSet R) (VSet ∅)) = Return r
    ∧ extra_in_frontend r = ∅
    ∧ missing_in_frontend r = R.
Proof.
  intros _. eexists. rewrite reconcile_sets. split; [reflexivity|]. cbn.
  split; set_solver.
Qed.

Lemma reconcile_observed_empty_witness :
  ({["company_overview"; "ipo_details"]} : gset string) ≠ ∅
  ∧ ∃ r, result (reconcile (VSet {["company_overview"; "ipo_details"]})
                   (VSet ∅)) = Return r
      ∧ extra_in_frontend r = ∅
      ∧ missing_in_frontend r = {["company_overview"; "ipo_details"]}.
Proof.
  split; [set_solver|].
  apply (reconcile_observed_empty {["company_overview"; "ipo_details"]}).
  set_solver.
Defined.

(** C9: missing and matched partition the reference set, extra and matched
    partition the observed set, so the two printed numbers satisfy
    matched + missing = total and matched never exceeds total. *)
Theorem reconcile_partitions (R O : gset string) :
  ∃ r, result (reconcile (VSet R) (VSet O)) = Return r
    ∧ missing_in_frontend r ∪ matched r = R
    ∧ missing_in_frontend r ∩ matched r = ∅
    ∧ extra_in_frontend r ∪ matched r = O
    ∧ extra_in_frontend r ∩ matched r = ∅
    ∧ len_db_fields r = size R
    ∧ len_matched r = size (matched r)
    ∧ len_matched r + size (missing_in_frontend r) = len_db_fields r
    ∧ len_matched r ≤ len_db_fields r
    ∧ last (printed (reconcile (VSet R) (VSet O)))
        = Some (MatchedCount (len_matched r) (len_db_fields r)).
Proof.
  eexists. rewrite reconcile_sets. split; [reflexivity|]. cbn.
  pose proof (size_difference_intersection R O) as Hsize.
  repeat split; try reflexivity; try lia.
  - apply set_eq. intros x.
    rewrite elem_of_union, elem_of_difference, elem_of_intersection.
    destruct (decide (x ∈ O)); tauto.
  - set_solver.
  - apply set_eq. intros x.
    rewrite elem_of_union, elem_of_difference, elem_of_intersection.
    destruct (decide (x ∈ R)); tauto.
  - set_solver.
  - unfold printed. cbn. rewrite !app_assoc. apply last_snoc.
Qed.

(** ** The printed fraction *)

Lemma Zpos_of_nat_S (m : nat) : Z.pos (Pos.of_nat (S m)) = Z.of_nat (S m).
Proof. rewrite <- positive_nat_Z, Nat2Pos.id by lia. reflexivity. Qed.

(** A fraction [n / S m] with [n ≤ S m] lies between 0 and 1 and is the
    quotient of the two numbers. *)
Lemma fraction_bounds (n m : nat) :
  n ≤ S m →
  (Z.of_nat n # Pos.of_nat (S m)
     == inject_Z (Z.of_nat n) / inject_Z (Z.of_nat (S m)))%Q
  ∧ (0 <= Z.of_nat n # Pos.of_nat (S m))%Q
  ∧ (Z.of_nat n # Pos.of_nat (S m) <= 1)%Q.
Proof.
  intros Hle. split; [|split].
  - rewrite <- Zpos_of_nat_S. apply Qmake_Qdiv.
  - unfold Qle. cbn [Qnum Qden]. lia.
  - unfold Qle. cbn [Qnum Qden]. rewrite Zpos_of_nat_S. lia.
Qed.

(** C2, as the script has it: the body formats the two lengths |matched|
    and |R| into its last line and never divides, so nothing is raised.
    When |R| > 0 the printed fraction denotes |matched| / |R|, a number
    between 0 and 1.  When |R| = 0 nothing is missing, both printed numbers
    are 0 and the fraction 0/0 denotes no number. *)
Theorem reconcile_printed_fraction (R O : gset string) :
  ∃ r, result (reconcile (VSet R) (VSet O)) = Return r
    ∧ len_matched r = size (matched r)
    ∧ len_db_fields r = size R
    ∧ last (printed (reconcile (VSet R) (VSet O)))
        = Some (MatchedCount (len_matched r) (len_db_fields r))
    ∧ match size R with
      | 0 => missing_in_frontend r = ∅
             ∧ len_matched r = 0 ∧ len_db_fields r = 0
             ∧ printed_coverage r = None
      | S _ => ∃ q, printed_coverage r = Some q
             ∧ (q == inject_Z (Z.of_nat (size (matched r)))
                      / inject_Z (Z.of_nat (size R)))%Q
             ∧ (0 <= q)%Q ∧ (q <= 1)%Q
      end.
Proof.
  eexists. rewrite reconcile_sets. split; [reflexivity|].
  unfold printed, printed_coverage. cbn.
  split; [reflexivity|]. split; [reflexivity|].
  split; [rewrite !app_assoc; apply last_snoc|].
  pose proof (size_difference_intersection R O) as Hsize.
  destruct (size R) as [|m] eqn:HR.
  - apply size_empty_inv in HR. apply leibniz_equiv in HR. subst R.
    repeat split; [set_solver|lia].
  - eexists. split; [reflexivity|]. apply fraction_bounds. lia.
Qed.

(** With an empty reference set the fraction printed is 0/0, which is not
    the number 1. *)
Lemma reconcile_empty_reference_no_coverage :
  ¬ ∃ r q, result (reconcile (VSet ∅) (VSet {["items"]})) = Return r
      ∧ printed_coverage r = Some q ∧ (q == 1)%Q.
Proof.
  intros (r & q & Hr & Hq & _). rewrite reconcile_sets in Hr.
  cbn in Hr. injection Hr as <-. vm_compute in Hq. discriminate.
Qed.

(** C4, as the script has it: a set compared with itself has nothing
    missing and nothing extra, and the two printed numbers are equal; the
    fraction denotes 1 when the set is not empty, and is 0/0 when it is. *)
Theorem reconcile_same_set (R : gset string) :
  ∃ r, result (reconcile (VSet R) (VSet R)) = Return r
    ∧ missing_in_frontend r = ∅
    ∧ extra_in_frontend r = ∅
    ∧ matched r = R
    ∧ len_matched r = len_db_fields r
    ∧ match size R with
      | 0 => printed_coverage r = None
      | S _ => ∃ q, printed_coverage r = Some q ∧ (q == 1)%Q
      end.
Proof.
  eexists. rewrite reconcile_sets. split; [reflexivity|].
  unfold printed_coverage. cbn.
  assert (R ∩ R = R) as -> by set_solver.
  repeat split; [set_solver..|].
  destruct (size R) as [|m]; [reflexivity|].
  eexists. split; [reflexivity|].
  unfold Qeq. cbn [Qnum Qden]. rewrite Zpos_of_nat_S. lia.
Qed.

(** The empty set compared with itself prints 0/0, not the number 1. *)
Lemma reconcile_same_empty_no_coverage :
  ¬ ∃ r q, result (reconcile (VSet ∅) (VSet ∅)) = Return r
      ∧ printed_coverage r = Some q ∧ (q == 1)%Q.
Proof.
  intros (r & q & Hr & Hq & _). rewrite reconcile_sets in Hr.
  cbn in Hr. injection Hr as <-. vm_compute in Hq. discriminate.
Qed.

(** ** Arguments that are not sets *)

(** When either argument is not a set, the first operation of the body,
    the difference of line 62, raises and nothing has been printed. *)
Lemma reconcile_not_sets (a b : value) :
  is_set a && is_set b = false → reconcile a b = ([], Raise TypeError).
Proof. destruct a, b; cbn; intros; done. Qed.

(** C8, as the script has it: the body has no error class of its own and
    checks nothing itself.  With [None] or a [str] for an argument, the set
    operator of line 62 raises Python's TypeError before anything is
    printed; with two sets, empty ones included, the body raises nothing. *)
Theorem reconcile_raises_only_type_error :
  (∀ v, reconcile VNone v = ([], Raise TypeError)
        ∧ reconcile v VNone = ([], Raise TypeError))
  ∧ (∀ s v, reconcile (VStr s) v = ([], Raise TypeError)
        ∧ reconcile v (VStr s) = ([], Raise TypeError))
  ∧ (∀ R O, ∃ r, result (reconcile (VSet R) (VSet O)) = Return r)
  ∧ (∀ O, ∃ r, result (reconcile (VSet ∅) (VSet O)) = Return r)
  ∧ (∀ R, ∃ r, result (reconcile (VSet R) (VSet ∅)) = Return r)
  ∧ (∀ a b e, result (reconcile a b) = Raise e →
        e = TypeError ∧ is_set a && is_set b = false).
Proof.
  split; [|split; [|split; [|split; [|split]]]].
  - intros v. split; apply reconcile_not_sets; [reflexivity|].
    destruct v; reflexivity.
  - intros s v. split; apply reconcile_not_sets; [reflexivity|].
    destruct v; reflexivity.
  - intros R O. eexists. rewrite reconcile_sets. reflexivity.
  - intros O. eexists. rewrite reconcile_sets. reflexivity.
  - intros R. eexists. rewrite reconcile_sets. reflexivity.
  - intros a b e He.
    destruct (is_set a && is_set b) eqn:Hab.
    + destruct a, b; try discriminate Hab.
      rewrite reconcile_sets in He. discriminate He.
    + rewrite (reconcile_not_sets a b Hab) in He.
      injection He as <-. split; reflexivity.
Qed.

(** No argument makes the body raise an exception of a class named
    InvalidInputError; [None] makes it raise TypeError. *)
Lemma reconcile_no_invalid_input_error :
  (¬ ∃ a b e, result (reconcile a b) = Raise e
       ∧ class_name e = "InvalidInputError")
  ∧ result (reconcile VNone (VSet ∅)) = Raise TypeError
  ∧ class_name TypeError ≠ "InvalidInputError".
Proof.
  split; [|split; [reflexivity|discriminate]].
  intros (a & b & e & _ & He). destruct e; discriminate He.
Qed.

(** ** The loop over the filing types *)

Section loop.

Implicit Types db fe : gmap string value.

(** An iteration reads the tables only at its own filing type. *)
Lemma iteration_local db fe db' fe' t :
  db' !! t = db !! t → fe' !! t = fe !! t →
  iteration db' fe' t = iteration db fe t.
Proof.
  intros Hdb Hfe. unfold iteration, py_getitem. rewrite Hdb, Hfe. reflexivity.
Qed.

Lemma iteration_found db fe t a b :
  db !! t = Some a → fe !! t = Some b →
  iteration db fe t
    = (Heading t :: Rule :: printed (reconcile a b), result (reconcile a b)).
Proof.
  intros Hdb Hfe. unfold iteration, py_getitem. rewrite Hdb, Hfe.
  cbn -[reconcile]. destruct (reconcile a b) as [out [r|e]]; reflexivity.
Qed.

Lemma headings_bullets (xs : list string) : headings (Bullet <$> xs) = [].
Proof. induction xs; [reflexivity|assumption]. Qed.

Lemma headings_field_lines title s :
  title = MissingTitle ∨ title = ExtraTitle →
  headings (field_lines title s) = [].
Proof.
  intros Ht. unfold field_lines. destruct (decide (s = ∅)); [reflexivity|].
  destruct Ht as [-> | ->]; cbn; apply headings_bullets.
Qed.

(** The body prints no heading. *)
Lemma headings_reconcile a b : headings (printed (reconcile a b)) = [].
Proof.
  destruct (is_set a && is_set b) eqn:Hab.
  - destruct a, b; try discriminate Hab. rewrite reconcile_sets.
    unfold printed, headings. cbn [fst]. rewrite !omap_app.
    fold (headings (field_lines MissingTitle (s ∖ s0))).
    fold (headings (field_lines ExtraTitle (s0 ∖ s))).
    rewrite !headings_field_lines by auto. reflexivity.
  - rewrite reconcile_not_sets by assumption. reflexivity.
Qed.

(** What a loop that returns has bound: one entry per element, in the
    order of the list, each the result of its own iteration. *)
Lemma for_collect_return {A B} (body : A → M B) (xs : list A) out rs :
  for_collect xs body = (out, Return rs) →
  rs.*1 = xs ∧ Forall (λ p, result (body p.1) = Return p.2) rs.
Proof.
  revert out rs. induction xs as [|x xs IH]; intros out rs Hrun.
  - injection Hrun as _ <-. split; constructor.
  - cbn in Hrun. destruct (body x) as [o1 [b|e]] eqn:Hb; [|discriminate].
    cbn in Hrun.
    destruct (for_collect xs body) as [o2 [bs|e]] eqn:Hbs; [|discriminate].
    cbn in Hrun. injection Hrun as _ <-.
    destruct (IH _ _ eq_refl) as [Hkeys Hall]. split.
    + cbn. by rewrite Hkeys.
    + constructor; [cbn; by rewrite Hb | assumption].
Qed.

(** When both tables hold a set for every listed filing type, the loop
    returns, and prints one heading per filing type in the order of the
    list. *)
Lemma filing_type_loop_sets types db fe :
  (∀ t, t ∈ types →
     ∃ R O, db !! t = Some (VSet R) ∧ fe !! t = Some (VSet O)) →
  ∃ rs, result (filing_type_loop types db fe) = Return rs
    ∧ headings (printed (filing_type_loop types db fe)) = types.
Proof.
  unfold filing_type_loop.
  induction types as [|t types IH]; intros Hsets.
  - eexists. split; reflexivity.
  - destruct (Hsets t) as (R & O & Hdb & Hfe); [left|].
    destruct IH as (rs & Hrs & Hhead); [intros; apply Hsets; by right|].
    pose proof (headings_reconcile (VSet R) (VSet O)) as Hbody.
    cbn [for_collect]. rewrite (iteration_found _ _ _ _ _ Hdb Hfe).
    rewrite reconcile_sets in *. unfold result, printed in *.
    destruct (for_collect types (iteration db fe)) as [o2 [bs|e]];
      [|discriminate].
    cbn in *. eexists. split; [reflexivity|].
    unfold headings in *. rewrite app_nil_r, omap_app, Hbody, Hhead.
    reflexivity.
Qed.

End loop.

Lemma str_lt_filing_types : StronglySorted str_lt filing_types.
Proof.
  unfold filing_types, str_lt.
  repeat (constructor; [|repeat constructor; reflexivity]). constructor.
Qed.

(** C7: the loop walks the filing types in the order of its list.  With a
    list sorted by name and tables that hold a set for every listed type,
    it returns one result per type, in that sorted order, and the headings
    are printed in that order; the result for a type is the body applied to
    that type's own pair of sets, and it is the same in any run whose
    tables agree with these at that type. *)
Theorem filing_type_loop_sorted_independent
    (types : list string) (db fe : gmap string value) :
  StronglySorted str_lt types →
  (∀ t, t ∈ types →
     ∃ R O, db !! t = Some (VSet R) ∧ fe !! t = Some (VSet O)) →
  ∃ rs, result (filing_type_loop types db fe) = Return rs
    ∧ rs.*1 = types
    ∧ StronglySorted str_lt rs.*1
    ∧ headings (printed (filing_type_loop types db fe)) = types
    ∧ ∀ t r, (t, r) ∈ rs →
        (∃ R O, db !! t = Some (VSet R) ∧ fe !! t = Some (VSet O)
           ∧ result (reconcile (VSet R) (VSet O)) = Return r)
        ∧ (∀ db' fe' rs',
             db' !! t = db !! t → fe' !! t = fe !! t →
             result (filing_type_loop types db' fe') = Return rs' →
             (t, r) ∈ rs').
Proof.
  intros Hsorted Hsets.
  destruct (filing_type_loop_sets types db fe Hsets) as (rs & Hrs & Hhead).
  exists rs. split; [assumption|].
  destruct (filing_type_loop types db fe) as [out o] eqn:Hrun.
  cbn in Hrs. subst o.
  destruct (for_collect_return _ _ _ _ Hrun) as [Hkeys Hall].
  split; [assumption|]. split; [by rewrite Hkeys|]. split; [assumption|].
  intros t r Hin.
  assert (result (iteration db fe t) = Return r) as Hit.
  { rewrite Forall_forall in Hall. apply (Hall (t, r) Hin). }
  assert (t ∈ types) as Ht.
  { rewrite <- Hkeys. apply list_elem_of_fmap. by exists (t, r). }
  split.
  - destruct (Hsets t Ht) as (R & O & Hdb & Hfe).
    exists R, O. split; [assumption|]. split; [assumption|].
    by rewrite (iteration_found _ _ _ _ _ Hdb Hfe) in Hit.
  - intros db' fe' rs' Hdb Hfe Hrun'.
    destruct (filing_type_loop types db' fe') as [out' o'] eqn:Hrun''.
    cbn in Hrun'. subst o'.
    destruct (for_collect_return _ _ _ _ Hrun'') as [Hkeys' Hall'].
    rewrite <- Hkeys' in Ht.
    apply list_elem_of_fmap in Ht as ([t' r'] & -> & Hin').
    rewrite Forall_forall in Hall'. specialize (Hall' _ Hin'). cbn [fst snd] in *.
    rewrite (iteration_local _ _ _ _ _ Hdb Hfe), Hit in Hall'.
    by injection Hall' as <-.
Qed.

(** Both tables of the script hold a set for every filing type of its
    list. *)
Lemma tables_hold_sets (t : string) :
  t ∈ filing_types →
  ∃ R O, DB_FIELDS !! t = Some (VSet R) ∧ FRONTEND_FIELDS !! t = Some (VSet O).
Proof.
  unfold filing_types. rewrite !elem_of_cons, elem_of_nil.
  intros [-> | [-> | [-> | [-> | []]]]]; do 2 eexists; split; reflexivity.
Qed.

Lemma filing_type_loop_sorted_independent_witness :
  StronglySorted str_lt filing_types
  ∧ (∀ t, t ∈ filing_types →
       ∃ R O, DB_FIELDS !! t = Some (VSet R)
              ∧ FRONTEND_FIELDS !! t = Some (VSet O))
  ∧ ∃ rs, result (filing_type_loop filing_types DB_FIELDS FRONTEND_FIELDS)
            = Return rs
      ∧ rs.*1 = ["10-K"; "10-Q"; "8-K"; "S-1"]
      ∧ headings
          (printed (filing_type_loop filing_types DB_FIELDS FRONTEND_FIELDS))
          = ["10-K"; "10-Q"; "8-K"; "S-1"].
Proof.
  split; [exact str_lt_filing_types|]. split; [exact tables_hold_sets|].
  destruct (filing_type_loop_sorted_independent
              filing_types DB_FIELDS FRONTEND_FIELDS
              str_lt_filing_types tables_hold_sets)
    as (rs & Hrs & Hkeys & _ & Hhead & _).
  exists rs. split; [exact Hrs|]. split; [exact Hkeys|exact Hhead].
Defined.

(** The batch scenario of the specification: two categories X and Y, walked
    in sorted order, give the results in the order X, Y. *)
Example filing_type_loop_X_Y (R1 O1 R2 O2 : gset string) :
  let db : gmap string value := {["X" := VSet R1; "Y" := VSet R2]} in
  let fe : gmap string value := {["X" := VSet O1; "Y" := VSet O2]} in
  ∃ r1 r2,
    result (filing_type_loop ["X"; "Y"] db fe)
      = Return [("X", r1); ("Y", r2)]
    ∧ result (reconcile (VSet R1) (VSet O1)) = Return r1
    ∧ result (reconcile (VSet R2) (VSet O2)) = Return r2.
Proof.
  intros db fe. unfold filing_type_loop. cbn [for_collect].
  rewrite (iteration_found db fe "X" (VSet R1) (VSet O1)) by reflexivity.
  rewrite (iteration_found db fe "Y" (VSet R2) (VSet O2)) by reflexivity.
  rewrite !reconcile_sets. do 2 eexists. repeat split.
Qed.

(** ** The literal tables *)

(** C10: the two tables have the same four keys, which are the filing
    types of the loop's list, so each lookup of the run finds its key and
    the script ends without raising. *)
Theorem script_lookups_succeed :
  dom DB_FIELDS = ({["10-K"; "10-Q"; "8-K"; "S-1"]} : gset string)
  ∧ dom FRONTEND_FIELDS = ({["10-K"; "10-Q"; "8-K"; "S-1"]} : gset string)
  ∧ dom DB_FIELDS = list_to_set filing_types
  ∧ Forall (λ t, ∃ a b, py_getitem DB_FIELDS t = Return a
                        ∧ py_getitem FRONTEND_FIELDS t = Return b)
      filing_types
  ∧ ∃ rs, result script = Return rs ∧ rs.*1 = filing_types.
Proof.
  split; [vm_compute; reflexivity|].
  split; [vm_compute; reflexivity|].
  split; [vm_compute; reflexivity|].
  split.
  - repeat constructor; do 2 eexists; split; reflexivity.
  - assert (match result script with
            | Return rs => rs.*1 = filing_types
            | Raise _ => False
            end) as Hrun by (vm_compute; reflexivity).
    destruct (result script) as [rs|e]; [|contradiction].
    exists rs. split; [reflexivity|exact Hrun].
Qed.

(** * Further properties of the script *)

(** ** What the body prints, lines 63 to 66 and 70 to 73 *)

Section report.

Implicit Types R O s : gset string.

Lemma bullet_in_field_lines title s f :
  title ≠ Bullet f → (Bullet f ∈ field_lines title s ↔ f ∈ s).
Proof.
  intros Htitle. unfold field_lines. destruct (decide (s = ∅)) as [->|Hne].
  - rewrite elem_of_nil. set_solver.
  - rewrite elem_of_cons, list_elem_of_fmap. split.
    + intros [Heq | (x & [= ->] & Hx)]; [congruence|].
      by apply elem_of_elements.
    + intros Hf. right. exists f. split; [reflexivity|].
      by apply elem_of_elements.
Qed.

Lemma title_in_field_lines title s :
  (∀ f, title ≠ Bullet f) → (title ∈ field_lines title s ↔ s ≠ ∅).
Proof.
  intros Htitle. unfold field_lines. destruct (decide (s = ∅)) as [->|Hne].
  - rewrite elem_of_nil. tauto.
  - rewrite elem_of_cons. tauto.
Qed.

Lemma other_in_field_lines title s l :
  l ≠ title → (∀ f, l ≠ Bullet f) → l ∉ field_lines title s.
Proof.
  intros Hl Hb. unfold field_lines. destruct (decide (s = ∅)).
  - apply not_elem_of_nil.
  - rewrite elem_of_cons, list_elem_of_fmap.
    intros [Heq | (x & Heq & _)]; [congruence|]. by apply (Hb x).
Qed.

#[local] Instance Bullet_inj : Inj (=) (=) Bullet.
Proof. intros x y [= ->]. reflexivity. Qed.

Lemma NoDup_field_lines title s :
  (∀ f, title ≠ Bullet f) → NoDup (field_lines title s).
Proof.
  intros Htitle. unfold field_lines. destruct (decide (s = ∅)).
  - constructor.
  - constructor.
    + rewrite list_elem_of_fmap. intros (x & Heq & _). by apply (Htitle x).
    + apply NoDup_fmap_2; [apply _|]. apply NoDup_elements.
Qed.

Lemma length_field_lines title s :
  length (field_lines title s) = if decide (s = ∅) then 0 else S (size s).
Proof.
  unfold field_lines. destruct (decide (s = ∅)); [reflexivity|].
  cbn. by rewrite length_fmap.
Qed.

(** X1: a field name is printed as a bullet exactly when it is in one of the
    two sets and not in the other, and no line is printed twice: every
    differing field is listed once. *)
Theorem reconcile_bullets_symmetric_difference R O :
  (∀ f, Bullet f ∈ printed (reconcile (VSet R) (VSet O))
        ↔ (f ∈ R ∧ f ∉ O) ∨ (f ∈ O ∧ f ∉ R))
  ∧ NoDup (printed (reconcile (VSet R) (VSet O))).
Proof.
  rewrite reconcile_sets. unfold printed. cbn [fst]. split.
  - intros f. rewrite !elem_of_app, !bullet_in_field_lines by discriminate.
    rewrite list_elem_of_singleton, !elem_of_difference.
    split; [intros [?|[?|?]]|intros [?|?]]; auto; discriminate.
  - apply NoDup_app. split; [by apply NoDup_field_lines|]. split.
    + intros l Hl. rewrite elem_of_app, list_elem_of_singleton.
      intros [Hl' | ->].
      * destruct l; try (by eapply other_in_field_lines in Hl);
          try (by eapply other_in_field_lines in Hl').
        apply bullet_in_field_lines in Hl; [|discriminate].
        apply bullet_in_field_lines in Hl'; [|discriminate]. set_solver.
      * by eapply other_in_field_lines in Hl.
    + apply NoDup_app. split; [by apply NoDup_field_lines|].
      split; [|apply NoDup_singleton].
      intros l Hl. rewrite list_elem_of_singleton. intros ->.
      by eapply other_in_field_lines in Hl.
Qed.

(** X2: the title of the missing block is printed exactly when some reference
    field is not observed, the title of the extra block exactly when some
    observed field is not in the reference; an empty difference prints no
    title (lines 63 and 70). *)
Theorem reconcile_titles R O :
  (MissingTitle ∈ printed (reconcile (VSet R) (VSet O)) ↔ ¬ R ⊆ O)
  ∧ (ExtraTitle ∈ printed (reconcile (VSet R) (VSet O)) ↔ ¬ O ⊆ R).
Proof.
  rewrite reconcile_sets. unfold printed. cbn [fst].
  assert (R ∖ O ≠ ∅ ↔ ¬ R ⊆ O) as HRO.
  { split.
    - intros Hne Hsub. apply Hne. set_solver.
    - intros Hsub Hempty. apply Hsub. intros x Hx.
      destruct (decide (x ∈ O)); [assumption|]. set_solver. }
  assert (O ∖ R ≠ ∅ ↔ ¬ O ⊆ R) as HOR.
  { split.
    - intros Hne Hsub. apply Hne. set_solver.
    - intros Hsub Hempty. apply Hsub. intros x Hx.
      destruct (decide (x ∈ R)); [assumption|]. set_solver. }
  rewrite <- HRO, <- HOR. split.
  - rewrite !elem_of_app, title_in_field_lines by discriminate.
    rewrite list_elem_of_singleton. split; [|by left].
    intros [?|[Hl|?]]; [assumption| |discriminate].
    by eapply other_in_field_lines in Hl.
  - rewrite !elem_of_app, title_in_field_lines by discriminate.
    rewrite list_elem_of_singleton. split; [|by right; left].
    intros [Hl|[?|?]]; [|assumption|discriminate].
    by eapply other_in_field_lines in Hl.
Qed.

(** X3: the body prints the count line alone exactly when the two sets are
    equal; with any difference it prints at least three lines. *)
Theorem reconcile_one_line_iff_equal R O :
  (length (printed (reconcile (VSet R) (VSet O))) = 1 ↔ R = O)
  ∧ (R ≠ O → 3 ≤ length (printed (reconcile (VSet R) (VSet O)))).
Proof.
  rewrite reconcile_sets. unfold printed. cbn [fst].
  rewrite !length_app, !length_field_lines. cbn [length].
  assert (R = O ↔ R ∖ O = ∅ ∧ O ∖ R = ∅) as Heq.
  { split; [intros ->; set_solver|]. intros [H1 H2].
    apply set_eq. intros x. split; intros Hx.
    - destruct (decide (x ∈ O)); [assumption|]. set_solver.
    - destruct (decide (x ∈ R)); [assumption|]. set_solver. }
  assert (∀ s, s ≠ ∅ → 1 ≤ size s) as Hsize.
  { intros s Hs. destruct (size s) eqn:Hz; [|lia].
    apply size_empty_inv, leibniz_equiv in Hz. contradiction. }
  rewrite Heq.
  destruct (decide (R ∖ O = ∅)) as [H1|H1], (decide (O ∖ R = ∅)) as [H2|H2];
    try specialize (Hsize _ H1) as Hs1; try specialize (Hsize _ H2) as Hs2;
    split; try tauto; try lia; split; try tauto; lia.
Qed.

End report.

(** ** How the three sets relate *)

Section algebra.

Implicit Types R O : gset string.

(** The body's result on two sets, as a value. *)
Lemma reconcile_sets_result R O :
  result (reconcile (VSet R) (VSet O))
    = Return {| missing_in_frontend := R ∖ O; extra_in_frontend := O ∖ R;
                matched := R ∩ O; len_matched := size (R ∩ O);
                len_db_fields := size R |}.
Proof. by rewrite reconcile_sets. Qed.

(** X4: missing, extra and matched are pairwise disjoint and together make up
    the union of the two sets, so their sizes add up to the size of the
    union. *)
Theorem reconcile_three_way_split R O :
  ∃ r, result (reconcile (VSet R) (VSet O)) = Return r
    ∧ missing_in_frontend r ∩ extra_in_frontend r = ∅
    ∧ missing_in_frontend r ∪ matched r ∪ extra_in_frontend r = R ∪ O
    ∧ size (missing_in_frontend r) + size (matched r)
        + size (extra_in_frontend r) = size (R ∪ O).
Proof.
  eexists. split; [apply reconcile_sets_result|]. cbn.
  assert ((R ∖ O) ∪ (R ∩ O) ∪ (O ∖ R) = R ∪ O) as Hcover.
  { apply set_eq. intros x.
    rewrite !elem_of_union, !elem_of_difference, elem_of_intersection.
    destruct (decide (x ∈ R)), (decide (x ∈ O)); tauto. }
  split; [set_solver|]. split; [exact Hcover|].
  rewrite <- Hcover.
  rewrite (size_union (R ∖ O ∪ R ∩ O) (O ∖ R)) by set_solver.
  rewrite (size_union (R ∖ O) (R ∩ O)) by set_solver. reflexivity.
Qed.

(** X5: exchanging the two arguments exchanges missing and extra and keeps
    matched; the second printed number becomes the size of the other set. *)
Theorem reconcile_swap R O :
  ∃ r r', result (reconcile (VSet R) (VSet O)) = Return r
    ∧ result (reconcile (VSet O) (VSet R)) = Return r'
    ∧ missing_in_frontend r' = extra_in_frontend r
    ∧ extra_in_frontend r' = missing_in_frontend r
    ∧ matched r' = matched r
    ∧ len_matched r' = len_matched r
    ∧ len_db_fields r' = size O.
Proof.
  do 2 eexists. split; [apply reconcile_sets_result|].
  split; [apply reconcile_sets_result|]. cbn.
  assert (O ∩ R = R ∩ O) as -> by set_solver. repeat split.
Qed.

(** X6: the printed fraction is n/n exactly when nothing is missing, that is
    when every reference field is observed. *)
Theorem reconcile_full_iff_nothing_missing R O :
  ∃ r, result (reconcile (VSet R) (VSet O)) = Return r
    ∧ (len_matched r = len_db_fields r ↔ missing_in_frontend r = ∅)
    ∧ (missing_in_frontend r = ∅ ↔ R ⊆ O).
Proof.
  eexists. split; [apply reconcile_sets_result|]. cbn.
  pose proof (size_difference_intersection R O) as Hsize.
  assert (R ∖ O = ∅ ↔ R ⊆ O) as Hsub.
  { split; [|set_solver]. intros Hempty x Hx.
    destruct (decide (x ∈ O)); [assumption|]. set_solver. }
  split; [|exact Hsub]. split.
  - intros Heq. assert (size (R ∖ O) = 0) as Hz by lia.
    by apply size_empty_inv, leibniz_equiv in Hz.
  - intros Hempty. rewrite Hempty, size_empty in Hsize. lia.
Qed.

(** X7: observing more fields never adds a missing field and never lowers the
    matched count; the total stays the size of the reference set. *)
Theorem reconcile_monotone_in_observed R O O' :
  O ⊆ O' →
  ∃ r r', result (reconcile (VSet R) (VSet O)) = Return r
    ∧ result (reconcile (VSet R) (VSet O')) = Return r'
    ∧ missing_in_frontend r' ⊆ missing_in_frontend r
    ∧ matched r ⊆ matched r'
    ∧ len_matched r ≤ len_matched r'
    ∧ len_db_fields r' = len_db_fields r.
Proof.
  intros Hsub. do 2 eexists. split; [apply reconcile_sets_result|].
  split; [apply reconcile_sets_result|]. cbn.
  split; [set_solver|]. split; [set_solver|]. split; [|reflexivity].
  apply subseteq_size. set_solver.
Qed.

Lemma reconcile_monotone_in_observed_witness :
  ({["items"]} : gset string) ⊆ {["items"; "item_type"]}
  ∧ ∃ r r',
      result (reconcile (VSet {["items"; "event_type"]}) (VSet {["items"]}))
        = Return r
      ∧ result (reconcile (VSet {["items"; "event_type"]})
                  (VSet {["items"; "item_type"]})) = Return r'
      ∧ len_matched r ≤ len_matched r'.
Proof.
  assert (({["items"]} : gset string) ⊆ {["items"; "item_type"]}) as Hsub
    by set_solver.
  split; [exact Hsub|].
  destruct (reconcile_monotone_in_observed {["items"; "event_type"]}
              {["items"]} {["items"; "item_type"]} Hsub)
    as (r & r' & Hr & Hr' & _ & _ & Hle & _).
  exists r, r'. split; [exact Hr|]. split; [exact Hr'|exact Hle].
Defined.

End algebra.

(** ** When an iteration fails, lines 55 to 59 *)

Section failure.

Implicit Types db fe : gmap string value.

(** A failed lookup ends the iteration after its heading and rule. *)
Lemma iteration_missing_key db fe t :
  db !! t = None ∨ fe !! t = None →
  iteration db fe t = ([Heading t; Rule], Raise (KeyError t)).
Proof.
  unfold iteration, py_getitem. intros [Hdb | Hfe].
  - rewrite Hdb. reflexivity.
  - rewrite Hfe. destruct (db !! t); reflexivity.
Qed.

(** So does an entry that is not a set, at the difference of line 62. *)
Lemma iteration_not_sets db fe t a b :
  db !! t = Some a → fe !! t = Some b → is_set a && is_set b = false →
  iteration db fe t = ([Heading t; Rule], Raise TypeError).
Proof.
  intros Hdb Hfe Hab. rewrite (iteration_found _ _ _ _ _ Hdb Hfe).
  rewrite (reconcile_not_sets _ _ Hab). reflexivity.
Qed.

Lemma iteration_sets db fe t R O :
  db !! t = Some (VSet R) → fe !! t = Some (VSet O) →
  ∃ out r, iteration db fe t = (out, Return r) ∧ headings out = [t].
Proof.
  intros Hdb Hfe. rewrite (iteration_found _ _ _ _ _ Hdb Hfe).
  pose proof (headings_reconcile (VSet R) (VSet O)) as Hhead.
  rewrite reconcile_sets in *. do 2 eexists. split; [reflexivity|].
  unfold printed in *. cbn in *. by rewrite Hhead.
Qed.

(** The loop ends at the first iteration that raises: the iterations before
    it have run, the ones after it have not. *)
Lemma filing_type_loop_first_failure db fe pre t post e :
  (∀ u, u ∈ pre →
     ∃ R O, db !! u = Some (VSet R) ∧ fe !! u = Some (VSet O)) →
  iteration db fe t = ([Heading t; Rule], Raise e) →
  result (filing_type_loop (pre ++ t :: post) db fe) = Raise e
  ∧ headings (printed (filing_type_loop (pre ++ t :: post) db fe))
      = pre ++ [t]
  ∧ last (printed (filing_type_loop (pre ++ t :: post) db fe)) = Some Rule.
Proof.
  intros Hpre Hfail. unfold filing_type_loop.
  induction pre as [|u pre IH].
  - cbn [app for_collect]. rewrite Hfail. repeat split.
  - destruct (Hpre u) as (R & O & Hdb & Hfe); [left|].
    destruct (iteration_sets _ _ _ _ _ Hdb Hfe) as (out & r & Hrun & Hhead).
    destruct IH as (Hres & Hheads & Hlast); [intros; apply Hpre; by right|].
    cbn [app for_collect]. rewrite Hrun.
    destruct (for_collect (pre ++ t :: post) (iteration db fe))
      as [out' [rs|e']]; [discriminate Hres|].
    unfold result, printed, headings in *. cbn in *.
    injection Hres as ->. split; [reflexivity|].
    rewrite omap_app, Hhead, Hheads. split; [reflexivity|].
    rewrite last_app, Hlast. reflexivity.
Qed.

(** X8: a filing type that is absent from either table stops the loop with a
    KeyError for that type.  The types before it have been reported, its
    own heading and rule are the last lines printed, and no later type is
    looked at. *)
Theorem filing_type_loop_missing_key db fe pre t post :
  (∀ u, u ∈ pre →
     ∃ R O, db !! u = Some (VSet R) ∧ fe !! u = Some (VSet O)) →
  db !! t = None ∨ fe !! t = None →
  result (filing_type_loop (pre ++ t :: post) db fe) = Raise (KeyError t)
  ∧ headings (printed (filing_type_loop (pre ++ t :: post) db fe))
      = pre ++ [t]
  ∧ last (printed (filing_type_loop (pre ++ t :: post) db fe)) = Some Rule.
Proof.
  intros Hpre Hnone. apply filing_type_loop_first_failure; [assumption|].
  by apply iteration_missing_key.
Qed.

Lemma filing_type_loop_missing_key_witness :
  (∀ u, u ∈ ["10-K"; "10-Q"] →
     ∃ R O, DB_FIELDS !! u = Some (VSet R)
            ∧ delete "8-K" FRONTEND_FIELDS !! u = Some (VSet O))
  ∧ (DB_FIELDS !! "8-K" = None ∨ delete "8-K" FRONTEND_FIELDS !! "8-K" = None)
  ∧ result (filing_type_loop filing_types DB_FIELDS
              (delete "8-K" FRONTEND_FIELDS)) = Raise (KeyError "8-K")
  ∧ headings (printed (filing_type_loop filing_types DB_FIELDS
                         (delete "8-K" FRONTEND_FIELDS)))
      = ["10-K"; "10-Q"; "8-K"].
Proof.
  assert (∀ u, u ∈ ["10-K"; "10-Q"] →
     ∃ R O, DB_FIELDS !! u = Some (VSet R)
            ∧ delete "8-K" FRONTEND_FIELDS !! u = Some (VSet O)) as Hpre.
  { intros u. rewrite !elem_of_cons, elem_of_nil.
    intros [-> | [-> | []]]; do 2 eexists; split; reflexivity. }
  assert (DB_FIELDS !! "8-K" = None
          ∨ delete "8-K" FRONTEND_FIELDS !! "8-K" = None) as Hnone
    by (right; reflexivity).
  split; [exact Hpre|]. split; [exact Hnone|].
  destruct (filing_type_loop_missing_key DB_FIELDS
              (delete "8-K" FRONTEND_FIELDS) ["10-K"; "10-Q"] "8-K" ["S-1"]
              Hpre Hnone) as (Hres & Hhead & _).
  split; [exact Hres|exact Hhead].
Defined.

(** X9: a table entry that is not a set, where both tables have the key, stops
    the loop with a TypeError in the same way: after that type's heading
    and rule and before any of its fields is printed. *)
Theorem filing_type_loop_entry_not_set db fe pre t post a b :
  (∀ u, u ∈ pre →
     ∃ R O, db !! u = Some (VSet R) ∧ fe !! u = Some (VSet O)) →
  db !! t = Some a → fe !! t = Some b → is_set a && is_set b = false →
  result (filing_type_loop (pre ++ t :: post) db fe) = Raise TypeError
  ∧ headings (printed (filing_type_loop (pre ++ t :: post) db fe))
      = pre ++ [t]
  ∧ last (printed (filing_type_loop (pre ++ t :: post) db fe)) = Some Rule.
Proof.
  intros Hpre Hdb Hfe Hab. apply filing_type_loop_first_failure; [assumption|].
  by apply (iteration_not_sets _ _ _ a b).
Qed.

Lemma filing_type_loop_entry_not_set_witness :
  (∀ u, u ∈ ["10-K"] →
     ∃ R O, <["10-Q" := VNone]> DB_FIELDS !! u = Some (VSet R)
            ∧ FRONTEND_FIELDS !! u = Some (VSet O))
  ∧ <["10-Q" := VNone]> DB_FIELDS !! "10-Q" = Some VNone
  ∧ (∃ O, FRONTEND_FIELDS !! "10-Q" = Some (VSet O))
  ∧ result (filing_type_loop filing_types (<["10-Q" := VNone]> DB_FIELDS)
              FRONTEND_FIELDS) = Raise TypeError
  ∧ headings (printed (filing_type_loop filing_types
                         (<["10-Q" := VNone]> DB_FIELDS) FRONTEND_FIELDS))
      = ["10-K"; "10-Q"].
Proof.
  assert (∀ u, u ∈ ["10-K"] →
     ∃ R O, <["10-Q" := VNone]> DB_FIELDS !! u = Some (VSet R)
            ∧ FRONTEND_FIELDS !! u = Some (VSet O)) as Hpre.
  { intros u. rewrite !elem_of_cons, elem_of_nil.
    intros [-> | []]; do 2 eexists; split; reflexivity. }
  split; [exact Hpre|]. split; [reflexivity|].
  split; [eexists; reflexivity|].
  destruct (filing_type_loop_entry_not_set (<["10-Q" := VNone]> DB_FIELDS)
              FRONTEND_FIELDS ["10-K"] "10-Q" ["8-K"; "S-1"] VNone _
              Hpre eq_refl eq_refl eq_refl) as (Hres & Hhead & _).
  split; [exact Hres|exact Hhead].
Defined.

End failure.

(** ** The banner and the advice block, lines 52 and 79 to 87 *)

Section whole_script.

Implicit Types db fe : gmap string value.

Lemma script_is_script_on :
  script = script_on filing_types DB_FIELDS FRONTEND_FIELDS.
Proof. reflexivity. Qed.

Lemma no_advice_field_lines title s :
  is_advice title = false →
  Forall (λ l, is_advice l = false) (field_lines title s).
Proof.
  intros Htitle. unfold field_lines. destruct (decide (s = ∅)); [constructor|].
  constructor; [assumption|]. apply Forall_fmap, Forall_true. reflexivity.
Qed.

Lemma no_advice_reconcile a b :
  Forall (λ l, is_advice l = false) (printed (reconcile a b)).
Proof.
  destruct (is_set a && is_set b) eqn:Hab.
  - destruct a, b; try discriminate Hab. rewrite reconcile_sets.
    unfold printed. cbn [fst].
    repeat apply Forall_app_2; try by apply no_advice_field_lines.
    by constructor.
  - rewrite reconcile_not_sets by assumption. constructor.
Qed.

Lemma no_advice_iteration db fe t :
  Forall (λ l, is_advice l = false) (printed (iteration db fe t)).
Proof.
  destruct (db !! t) as [a|] eqn:Hdb; [destruct (fe !! t) as [b|] eqn:Hfe|].
  - rewrite (iteration_found _ _ _ _ _ Hdb Hfe). unfold printed at 1.
    cbn [fst]. do 2 (constructor; [reflexivity|]). apply no_advice_reconcile.
  - rewrite iteration_missing_key by auto. by repeat constructor.
  - rewrite iteration_missing_key by auto. by repeat constructor.
Qed.

Lemma no_advice_for_collect {A B} (body : A → M B) (xs : list A) :
  (∀ x, Forall (λ l, is_advice l = false) (printed (body x))) →
  Forall (λ l, is_advice l = false) (printed (for_collect xs body)).
Proof.
  intros Hbody. induction xs as [|x xs IH]; [constructor|].
  specialize (Hbody x). cbn [for_collect].
  destruct (body x) as [o1 [b|e]]; [|exact Hbody].
  destruct (for_collect xs body) as [o2 [bs|e]];
    unfold printed in *; cbn in *; rewrite ?app_nil_r;
    by apply Forall_app_2.
Qed.

(** X10: whatever the tables hold, the banner is the first line printed and the
    script ends as its loop ends.  The advice block follows the loop's
    output when the loop returns; when the loop raises, the output stops
    with the loop's and holds no advice line. *)
Theorem script_on_banner_and_advice (types : list string) db fe :
  result (script_on types db fe) = result (filing_type_loop types db fe)
  ∧ printed (script_on types db fe)
      = Banner :: printed (filing_type_loop types db fe)
          ++ match result (filing_type_loop types db fe) with
             | Return _ => advice_block
             | Raise _ => []
             end
  ∧ (∀ l, is_advice l = true →
       (l ∈ printed (script_on types db fe)
        ↔ l ∈ advice_block
          ∧ ∃ rs, result (script_on types db fe) = Return rs)).
Proof.
  pose proof (no_advice_for_collect (iteration db fe) types
                (no_advice_iteration db fe)) as Hloop.
  fold (filing_type_loop types db fe) in Hloop.
  unfold script_on.
  destruct (filing_type_loop types db fe) as [out [rs|e]];
    unfold printed, result in *; cbn in *.
  - split; [reflexivity|]. split; [reflexivity|].
    intros l Hl. rewrite elem_of_cons, elem_of_app.
    rewrite Forall_forall in Hloop. split.
    + intros [-> | [Hin | Hin]]; [discriminate| |by eauto].
      apply Hloop in Hin. congruence.
    + intros [Hin _]. right. by right.
  - split; [reflexivity|]. split; [by rewrite app_nil_r|].
    intros l Hl. rewrite elem_of_cons.
    rewrite Forall_forall in Hloop. split.
    + intros [-> | Hin]; [discriminate|]. apply Hloop in Hin. congruence.
    + intros [_ [rs Hrs]]. discriminate Hrs.
Qed.

End whole_script.

(** ** The report of a run that succeeds *)

Section sections.

Implicit Types db fe : gmap string value.

Lemma for_collect_printed {A B} (body : A → M B) (xs : list A) :
  (∀ x, x ∈ xs → ∃ b, result (body x) = Return b) →
  printed (for_collect xs body) = concat ((λ x, printed (body x)) <$> xs).
Proof.
  induction xs as [|x xs IH]; intros Hret; [reflexivity|].
  destruct (Hret x) as [b Hb]; [left|].
  specialize (IH (λ y Hy, Hret y (list_elem_of_further _ _ _ Hy))).
  cbn [for_collect fmap list_fmap concat].
  destruct (body x) as [o1 [b'|e]]; [|discriminate Hb].
  destruct (for_collect xs body) as [o2 [bs|e]];
    unfold printed in *; cbn in *; rewrite ?app_nil_r; by rewrite IH.
Qed.

(** X11: when both tables hold a set for every listed type, the output of the
    loop is one section per type, in the order of the list: the heading,
    the rule, then what the body prints for that type's own two sets.  A
    section holds nothing that comes from another type. *)
Theorem filing_type_loop_sections (types : list string) db fe
    (R O : string → gset string) :
  (∀ t, t ∈ types → db !! t = Some (VSet (R t)) ∧ fe !! t = Some (VSet (O t))) →
  printed (filing_type_loop types db fe)
    = concat ((λ t, Heading t :: Rule
                      :: printed (reconcile (VSet (R t)) (VSet (O t))))
                <$> types).
Proof.
  intros Hsets. unfold filing_type_loop.
  rewrite for_collect_printed.
  - f_equal. apply list_fmap_ext. intros i t Hi.
    destruct (Hsets t) as [Hdb Hfe]; [by eapply list_elem_of_lookup_2|].
    by rewrite (iteration_found _ _ _ _ _ Hdb Hfe).
  - intros t Ht. destruct (Hsets t Ht) as [Hdb Hfe].
    rewrite (iteration_found _ _ _ _ _ Hdb Hfe), reconcile_sets.
    eexists. reflexivity.
Qed.

Lemma filing_type_loop_sections_witness :
  (∀ t, t ∈ ["8-K"] →
     ({["8-K" := VSet {["items"; "item_type"]}]} : gmap string value) !! t
       = Some (VSet {["items"; "item_type"]})
     ∧ ({["8-K" := VSet {["items"; "event_type"]}]} : gmap string value) !! t
       = Some (VSet {["items"; "event_type"]}))
  ∧ printed (filing_type_loop ["8-K"]
               {["8-K" := VSet {["items"; "item_type"]}]}
               {["8-K" := VSet {["items"; "event_type"]}]})
      = [Heading "8-K"; Rule; MissingTitle; Bullet "item_type"; ExtraTitle;
         Bullet "event_type"; MatchedCount 1 2].
Proof.
  assert (∀ t, t ∈ ["8-K"] →
     ({["8-K" := VSet {["items"; "item_type"]}]} : gmap string value) !! t
       = Some (VSet {["items"; "item_type"]})
     ∧ ({["8-K" := VSet {["items"; "event_type"]}]} : gmap string value) !! t
       = Some (VSet {["items"; "event_type"]})) as Hsets.
  { intros t. rewrite elem_of_cons, elem_of_nil.
    intros [-> | []]. split; reflexivity. }
  split; [exact Hsets|].
  rewrite (filing_type_loop_sections ["8-K"] _ _
             (λ _, {["items"; "item_type"]}) (λ _, {["items"; "event_type"]})
             Hsets).
  vm_compute. reflexivity.
Defined.

End sections.
